(** * homebridge-remote-ssh: the SSH switch accessory

    A shallow embedding of [src/src/accessory.ts] (and of the second copy
    of the class, [src/unnamed/part_000], whose [getState] differs) and
    the properties of the adapter stated over it.

    JavaScript values that the class receives with type [any] (the raw
    accessory configuration, the argument of an [error] event, the
    characteristic value) are modelled by [JsValue]; strings are
    sequences of code units in the range U+0000..U+00FF, on which
    [String.prototype.trim] and [String.prototype.toLowerCase] are
    written out in full. *)

From Stdlib Require Import String Ascii ZArith NArith List Bool Lia DecimalString.
From stdpp Require Import base option gmap strings.
Import ListNotations.

Local Open Scope string_scope.
Local Open Scope Z_scope.

(* stdpp keeps [simpl] from unfolding string concatenation. *)
#[local] Arguments String.append !_ _ / : simpl nomatch.

(** ** JavaScript strings *)

Module JsString.

(** [WhiteSpace] and [LineTerminator] code units below U+0100: TAB, LF,
    VT, FF, CR, SPACE and NO-BREAK SPACE. *)
Definition isWhiteSpace (c : ascii) : bool :=
  let n := N_of_ascii c in
  (((9 <=? n) && (n <=? 13)) || (n =? 32) || (n =? 160))%N.

(** Lower-case mapping of one code unit: A..Z, and the Latin-1 capitals
    U+00C0..U+00DE except the multiplication sign U+00D7. *)
Definition lowerChar (c : ascii) : ascii :=
  let n := N_of_ascii c in
  if (((65 <=? n) && (n <=? 90))
      || ((192 <=? n) && (n <=? 222) && negb (n =? 215)))%N
  then ascii_of_N (n + 32) else c.

Fixpoint toLowerCase (s : string) : string :=
  match s with
  | EmptyString => EmptyString
  | String c r => String (lowerChar c) (toLowerCase r)
  end.

Fixpoint trimStart (s : string) : string :=
  match s with
  | EmptyString => EmptyString
  | String c r => if isWhiteSpace c then trimStart r else s
  end.

Fixpoint trimEnd (s : string) : string :=
  match s with
  | EmptyString => EmptyString
  | String c r =>
      match trimEnd r with
      | EmptyString =>
          if isWhiteSpace c then EmptyString else String c EmptyString
      | r' => String c r'
      end
  end.

Definition trim (s : string) : string := trimEnd (trimStart s).

(** [s.indexOf(pat)]: the least index at which [pat] occurs in [s],
    or [-1]. *)
Fixpoint indexOfFrom (i : Z) (s pat : string) : Z :=
  match s with
  | EmptyString => match pat with EmptyString => i | String _ _ => -1 end
  | String _ r =>
      if String.prefix pat s then i else indexOfFrom (i + 1) r pat
  end.

Definition indexOf (s pat : string) : Z := indexOfFrom 0 s pat.

(** [sub] occurs in [s]. *)
Definition occursIn (sub s : string) : Prop :=
  exists pre post, s = pre +:+ sub +:+ post.

Definition allWhiteSpace (s : string) : Prop :=
  Forall (fun c => isWhiteSpace c = true) (list_ascii_of_string s).

(** A string that does not start with white space. *)
Definition headOk (s : string) : Prop :=
  match s with
  | EmptyString => True
  | String c _ => isWhiteSpace c = false
  end.

End JsString.

Import JsString.

(** ** JavaScript values *)

Inductive JsValue : Type :=
| JUndefined
| JNull
| JBool (b : bool)
| JNum (n : Z)                      (* an integral number, short enough
                                       for [String] to print every digit *)
| JStr (s : string)
| JObj (ref : nat) (text : string)  (* an object, by reference; [text] is
                                       what [String(obj)] yields *)
| JError (message : string).        (* the object made by [new Error(message)] *)

(** [ToBoolean]. *)
Definition truthy (v : JsValue) : bool :=
  match v with
  | JUndefined | JNull => false
  | JBool b => b
  | JNum n => negb (n =? 0)
  | JStr s => negb (String.eqb s "")
  | JObj _ _ | JError _ => true
  end.

(** [a || b]. *)
Definition or_else (a b : JsValue) : JsValue := if truthy a then a else b.

(** [ToString], as applied by string concatenation. *)
Definition ToString (v : JsValue) : string :=
  match v with
  | JUndefined => "undefined"
  | JNull => "null"
  | JBool true => "true"
  | JBool false => "false"
  | JNum n => NilZero.string_of_int (Z.to_int n)
  | JStr s => s
  | JObj _ text => text
  | JError message =>
      if String.eqb message "" then "Error" else "Error: " +:+ message
  end.

Definition isObject (v : JsValue) : bool :=
  match v with
  | JObj _ _ | JError _ => true
  | _ => false
  end.

(** Outcome of code that may throw. *)
Inductive Completion (A : Type) : Type :=
| Normal (a : A)
| ThrowTypeError (what : string).
Arguments Normal {A} a.
Arguments ThrowTypeError {A} what.

(** ** The accessory configuration and the collaborators *)

(** [AccessoryConfig]: a record of [any]; a key that is not there reads
    as [undefined]. *)
Definition config_at (config : gmap string JsValue) (key : string) : JsValue :=
  default JUndefined (config !! key).

(** The second argument of [ssh(command, options)].  It is built by
    [assign(target, config["ssh"])]; [object-assign] is an external
    module, so the merged object is kept as the two arguments of the
    call. *)
Record SshOptions : Type := {
  user : JsValue;
  host : JsValue;
  password : JsValue;
  key : JsValue;
  assigned : JsValue
}.

Inductive CharacteristicEventTypes : Type := GET | SET.

(** The two bound methods that [getServices] registers. *)
Inductive Handler : Type := setState_bound | getState_bound.

Inductive Characteristic : Type := Manufacturer | Model | SerialNumber | On.

Definition Characteristic_eqb (a b : Characteristic) : bool :=
  match a, b with
  | Manufacturer, Manufacturer | Model, Model
  | SerialNumber, SerialNumber | On, On => true
  | _, _ => false
  end.

Inductive ServiceKind : Type := Switch | AccessoryInformation.

(** A HAP service: the values given to its characteristics with
    [setCharacteristic], and the listeners attached with [on], in the
    order of attachment. *)
Record Service : Type := {
  kind : ServiceKind;
  displayName : JsValue;
  values : list (Characteristic * string);
  listeners : list (Characteristic * CharacteristicEventTypes * Handler)
}.

Definition setCharacteristic (s : Service) (c : Characteristic) (v : string)
  : Service :=
  {| kind := kind s;
     displayName := displayName s;
     values :=
       (List.filter (fun p => negb (Characteristic_eqb (fst p) c)) (values s)
        ++ [(c, v)])%list;
     listeners := listeners s |}.

Definition on_ (s : Service) (c : Characteristic)
    (e : CharacteristicEventTypes) (h : Handler) : Service :=
  {| kind := kind s;
     displayName := displayName s;
     values := values s;
     listeners := (listeners s ++ [(c, e, h)])%list |}.

(** ** class SshAccessory *)

Record SshAccessory : Type := {
  powerOn : JsValue;
  name : JsValue;
  service : string;
  onCommand : JsValue;
  offCommand : JsValue;
  stateCommand : JsValue;
  onValue : string;
  exactMatch : JsValue;
  ssh : SshOptions;
  switchService : Service;
  informationService : Service
}.

(** [constructor(log, config, api)].  [this.onValue.trim()] throws when
    [config["on_value"] || "playing"] is not a string. *)
Definition construct (config : gmap string JsValue) : Completion SshAccessory :=
  let name_ := config_at config "name" in
  match or_else (config_at config "on_value") (JStr "playing") with
  | JStr onValue_ =>
      Normal
        {| powerOn := JBool false;
           name := name_;
           service := "Switch";
           onCommand := config_at config "on";
           offCommand := config_at config "off";
           stateCommand := config_at config "state";
           onValue := toLowerCase (trim onValue_);
           exactMatch := or_else (config_at config "exact_match") (JBool true);
           ssh :=
             {| user := config_at config "user";
                host := config_at config "host";
                password := config_at config "password";
                key := config_at config "key";
                assigned := config_at config "ssh" |};
           switchService :=
             {| kind := Switch; displayName := name_;
                values := []; listeners := [] |};
           informationService :=
             {| kind := AccessoryInformation; displayName := JUndefined;
                values := []; listeners := [] |} |}
  | _ => ThrowTypeError "this.onValue.trim is not a function"
  end.

(** [matchesString(match)]. *)
Definition matchesString (this : SshAccessory) (match_ : string) : bool :=
  if truthy (exactMatch this)
  then String.eqb match_ (onValue this)
  else indexOf match_ (onValue this) >? -1.

(** [accessory[prop]] for the members that hold plain values.  The
    members that hold objects or functions ([log], [ssh], the two
    services, the methods) are not values of [JsValue] and are left out:
    [setState] only builds the keys ["onCommand"] and ["offCommand"]. *)
Definition property (this : SshAccessory) (prop : string) : JsValue :=
  if String.eqb prop "onCommand" then onCommand this
  else if String.eqb prop "offCommand" then offCommand this
  else if String.eqb prop "stateCommand" then stateCommand this
  else if String.eqb prop "name" then name this
  else if String.eqb prop "service" then JStr (service this)
  else if String.eqb prop "onValue" then JStr (onValue this)
  else if String.eqb prop "exactMatch" then exactMatch this
  else if String.eqb prop "powerOn" then powerOn this
  else JUndefined.

(** What a method or a stream listener does to the outside world. *)
Inductive Effect : Type :=
| Log (message : string)                       (* accessory.log(message) *)
| Exec (command : JsValue) (options : SshOptions)  (* ssh(command, options) *)
| Callback (args : list JsValue).              (* callback(...args) *)

(** The events of the stream that [ssh] returns.  A data chunk is given
    by the text that [data.toString()] decodes from it. *)
Inductive StreamEvent : Type :=
| Ev_error (err : JsValue)
| Ev_data (text : string)
| Ev_finish
| Ev_close
| Ev_end.

(** [let state = powerOn ? "on" : "off"]. *)
Definition targetState (powerOn_ : JsValue) : string :=
  if truthy powerOn_ then "on" else "off".

(** [setState(powerOn, callback)] up to the registration of the
    listeners. *)
Definition setState (this : SshAccessory) (powerOn_ : JsValue) : list Effect :=
  let state := targetState powerOn_ in
  let prop := state +:+ "Command" in
  let command := property this prop in
  [Exec command (ssh this)].

(** The listeners that [setState(powerOn, callback)] puts on its stream:
    [error] and [finish]. *)
Definition setState_on (this : SshAccessory) (powerOn_ : JsValue)
    (ev : StreamEvent) : list Effect :=
  let state := targetState powerOn_ in
  match ev with
  | Ev_error err =>
      [Log ("Error: " +:+ ToString err);
       Callback
         [or_else err
            (JError ("Error setting " +:+ ToString (name this)
                     +:+ " to " +:+ state))]]
  | Ev_finish =>
      [Log ("Set " +:+ ToString (name this) +:+ " to " +:+ state);
       Callback [JUndefined]]
  | Ev_data _ | Ev_close | Ev_end => []
  end.

(** [identify()]. *)
Definition identify (this : SshAccessory) : list Effect := [Log "Identify!"].

(** [getServices()]: the instance with its two services updated, and the
    returned array. *)
Definition getServices (this : SshAccessory) : SshAccessory * list Service :=
  let information :=
    setCharacteristic
      (setCharacteristic
         (setCharacteristic (informationService this)
            Manufacturer "SSH Manufacturer")
         Model "SSH Model")
      SerialNumber "SSH Serial Number" in
  let characteristic := on_ (switchService this) On SET setState_bound in
  let characteristic :=
    if truthy (stateCommand this)
    then on_ characteristic On GET getState_bound
    else characteristic in
  ({| powerOn := powerOn this;
      name := name this;
      service := service this;
      onCommand := onCommand this;
      offCommand := offCommand this;
      stateCommand := stateCommand this;
      onValue := onValue this;
      exactMatch := exactMatch this;
      ssh := ssh this;
      switchService := characteristic;
      informationService := information |},
   [information; characteristic]).

(** [getState(callback)] up to the registration of the listeners; the
    same in both copies of the class. *)
Definition getState (this : SshAccessory) : list Effect :=
  [Exec (stateCommand this) (ssh this)].

Section GetState.

(** [data.toString().match(accessory.matchesString)] hands a function
    to [String.prototype.match], which turns it into
    [new RegExp(String(accessory.matchesString))]: the pattern is the
    text of the compiled method, which is not part of the sources.
    [sourceMatch text] says whether that pattern is found in [text],
    that is, whether the result of [match] is truthy. *)
Variable sourceMatch : string -> bool.

(** The listeners that [getState(callback)] of [src/src/accessory.ts]
    puts on its stream. *)
Definition getState_on (this : SshAccessory) (ev : StreamEvent)
  : list Effect :=
  match ev with
  | Ev_error err =>
      [Log ("Error: " +:+ ToString err);
       Callback
         [or_else err
            (JError ("Error getting " +:+ ToString (name this)
                     +:+ " state"))]]
  | Ev_data text =>
      let match_ := sourceMatch text in
      let state := toLowerCase (trim text) in
      if match_ then
        [Log ("State of " +:+ ToString (name this) +:+ " is "
              +:+ onValue this);
         Callback [JUndefined; powerOn this]]
      else
        [Log ("State of " +:+ ToString (name this) +:+ " is " +:+ state);
         Callback [JUndefined; JBool (matchesString this state)]]
  | Ev_finish =>
      [Log ("Finished getting " +:+ ToString (name this) +:+ " state")]
  | Ev_close => [Log ("Closed " +:+ ToString (name this) +:+ " state")]
  | Ev_end => [Log ("Ended " +:+ ToString (name this) +:+ " state")]
  end.

(** What can happen to an instance: a call of one of its methods by
    the hub, or an event on a stream opened by an earlier call. *)
Inductive Action : Type :=
| call_identify
| call_getServices
| call_setState (powerOn_ : JsValue)
| call_getState
| event_setState (powerOn_ : JsValue) (ev : StreamEvent)
| event_getState (ev : StreamEvent).

Definition step (this : SshAccessory) (a : Action)
  : SshAccessory * list Effect :=
  match a with
  | call_identify => (this, identify this)
  | call_getServices => (fst (getServices this), [])
  | call_setState p => (this, setState this p)
  | call_getState => (this, getState this)
  | event_setState p ev => (this, setState_on this p ev)
  | event_getState ev => (this, getState_on this ev)
  end.

Fixpoint run (this : SshAccessory) (actions : list Action)
  : SshAccessory * list Effect :=
  match actions with
  | [] => (this, [])
  | a :: rest =>
      let '(this', out) := step this a in
      let '(this'', out') := run this' rest in
      (this'', (out ++ out')%list)
  end.

(** The instances that a configuration can lead to. *)
Definition reachable (config : gmap string JsValue) (this : SshAccessory)
  : Prop :=
  exists this0 actions,
    construct config = Normal this0 /\ fst (run this0 actions) = this.

End GetState.

(** The copy of the class in [src/unnamed/part_000]: only the listeners
    of [getState] differ. *)
Module Part000.

Definition getState_on (this : SshAccessory) (ev : StreamEvent)
  : list Effect :=
  match ev with
  | Ev_error err =>
      [Log ("Error: " +:+ ToString err);
       Callback
         [or_else err
            (JError ("Error getting state of " +:+ ToString (name this)))]]
  | Ev_data text =>
      let state := toLowerCase (trim text) in
      [Log ("State of " +:+ ToString (name this) +:+ " is: " +:+ state);
       Callback [JUndefined; JBool (matchesString this state)]]
  | Ev_finish | Ev_close | Ev_end => []
  end.

End Part000.

(** The calls of the transport and of the callback among some effects. *)
Definition execs (out : list Effect) : list JsValue :=
  flat_map (fun e => match e with Exec c _ => [c] | _ => [] end) out.

Definition callbacks (out : list Effect) : list (list JsValue) :=
  flat_map (fun e => match e with Callback args => [args] | _ => [] end) out.

(** ** The pattern that [String.prototype.match] builds from a method text

    [new RegExp(text)] for a text made of ordinary characters, [.] and
    parenthesised groups: every atom takes exactly one code unit, so a
    match at a position is decided by one pass.  A text with any other
    pattern syntax is outside this fragment. *)
Module SourcePattern.

Inductive Atom : Type :=
| Lit (c : ascii)   (* the character itself *)
| AnyChar.          (* [.]: any code unit but a line terminator *)

Definition isDigit (c : ascii) : bool :=
  let n := N_of_ascii c in ((48 <=? n) && (n <=? 57))%N.

Definition isLineTerminator (c : ascii) : bool :=
  let n := N_of_ascii c in ((n =? 10) || (n =? 13))%N.

(** Characters whose meaning in a pattern is not modelled:
    [\ * + ? [ ] | ^ $]. *)
Definition unsupported (c : ascii) : bool :=
  existsb (Ascii.eqb c)
    ["\"; "*"; "+"; "?"; "["; "]"; "|"; "^"; "$"]%char.

(** The atoms of a pattern text; [depth] counts the open groups.  A
    brace is an ordinary character unless a digit follows it. *)
Fixpoint parseFrom (depth : nat) (text : string) : option (list Atom) :=
  match text with
  | EmptyString => match depth with O => Some [] | S _ => None end
  | String c rest =>
      if Ascii.eqb c "("%char then parseFrom (S depth) rest
      else if Ascii.eqb c ")"%char then
        match depth with O => None | S d => parseFrom d rest end
      else if unsupported c then None
      else if Ascii.eqb c "{"%char
              && match rest with String d _ => isDigit d | _ => false end
      then None
      else
        match parseFrom depth rest with
        | Some atoms =>
            Some ((if Ascii.eqb c "."%char then AnyChar else Lit c) :: atoms)
        | None => None
        end
  end.

Definition parse (text : string) : option (list Atom) := parseFrom 0 text.

Definition atomMatches (a : Atom) (c : ascii) : bool :=
  match a with
  | Lit l => Ascii.eqb l c
  | AnyChar => negb (isLineTerminator c)
  end.

Fixpoint matchAt (atoms : list Atom) (s : string) : bool :=
  match atoms, s with
  | [], _ => true
  | _ :: _, EmptyString => false
  | a :: atoms', String c r => atomMatches a c && matchAt atoms' r
  end.

Fixpoint search (atoms : list Atom) (s : string) : bool :=
  matchAt atoms s
  || match s with
     | EmptyString => false
     | String _ r => search atoms r
     end.

(** Whether [subject.match(new RegExp(text))] is truthy, for a pattern
    text of the fragment. *)
Definition test (text subject : string) : option bool :=
  match parse text with
  | Some atoms => Some (search atoms subject)
  | None => None
  end.

(** A text that the atoms match: each atom by one character. *)
Fixpoint sample (atoms : list Atom) : string :=
  match atoms with
  | [] => EmptyString
  | Lit c :: atoms' => String c (sample atoms')
  | AnyChar :: atoms' => String "."%char (sample atoms')
  end.

End SourcePattern.

(** LINE FEED. *)
Definition nl : string := String (ascii_of_nat 10) EmptyString.

(** The text of [matchesString] as the TypeScript compiler prints the
    method for an ES2015 or later target, which is what
    [String(accessory.matchesString)] returns there.  It has no
    quantifier, class, alternative or escape, so it is a pattern of the
    fragment above. *)
Definition matchesString_text : string :=
  "matchesString(match) {" +:+ nl +:+
  "        if (this.exactMatch) {" +:+ nl +:+
  "            return match === this.onValue;" +:+ nl +:+
  "        }" +:+ nl +:+
  "        else {" +:+ nl +:+
  "            return match.indexOf(this.onValue) > -1;" +:+ nl +:+
  "        }" +:+ nl +:+
  "    }".

(** [sourceMatch] for that text. *)
Definition matchesString_pattern (subject : string) : bool :=
  default false (SourcePattern.test matchesString_text subject).

(** A chunk in which the pattern is found: the method text without its
    parentheses. *)
Definition matching_chunk : string :=
  match SourcePattern.parse matchesString_text with
  | Some atoms => SourcePattern.sample atoms
  | None => EmptyString
  end.

(** ** Configurations used below *)

(** The configuration of the end-to-end scenario of the specification. *)
Definition lamp : gmap string JsValue :=
  <["name" := JStr "Lamp"]>
  (<["on" := JStr "relay on"]>
   (<["off" := JStr "relay off"]>
    (<["state" := JStr "relay status"]>
     (<["on_value" := JStr "ON"]>
      (<["exact_match" := JBool false]> ∅))))).

(** The same configuration with [exact_match] set to [true]. *)
Definition lamp_exact : gmap string JsValue :=
  <["exact_match" := JBool true]> lamp.

(** The instance that the constructor makes from [lamp]. *)
Definition lamp_accessory : SshAccessory :=
  {| powerOn := JBool false;
     name := JStr "Lamp";
     service := "Switch";
     onCommand := JStr "relay on";
     offCommand := JStr "relay off";
     stateCommand := JStr "relay status";
     onValue := "on";
     exactMatch := JBool true;
     ssh :=
       {| user := JUndefined; host := JUndefined; password := JUndefined;
          key := JUndefined; assigned := JUndefined |};
     switchService :=
       {| kind := Switch; displayName := JStr "Lamp";
          values := []; listeners := [] |};
     informationService :=
       {| kind := AccessoryInformation; displayName := JUndefined;
          values := []; listeners := [] |} |}.

(** An instance whose [exactMatch] field holds [false]; the constructor
    does not make one. *)
Definition lamp_substring : SshAccessory :=
  {| powerOn := powerOn lamp_accessory;
     name := name lamp_accessory;
     service := service lamp_accessory;
     onCommand := onCommand lamp_accessory;
     offCommand := offCommand lamp_accessory;
     stateCommand := stateCommand lamp_accessory;
     onValue := onValue lamp_accessory;
     exactMatch := JBool false;
     ssh := ssh lamp_accessory;
     switchService := switchService lamp_accessory;
     informationService := informationService lamp_accessory |}.

(** The fields that only the constructor assigns. *)
Definition sameData (a b : SshAccessory) : Prop :=
  powerOn a = powerOn b /\ name a = name b /\ service a = service b
  /\ onCommand a = onCommand b /\ offCommand a = offCommand b
  /\ stateCommand a = stateCommand b /\ onValue a = onValue b
  /\ exactMatch a = exactMatch b /\ ssh a = ssh b.

(** The configuration [lamp] with [matching_chunk] as its [on_value], and
    the instance that the constructor makes from it. *)
Definition lamp_echo : gmap string JsValue :=
  <["on_value" := JStr matching_chunk]> lamp.

Definition lamp_echo_accessory : SshAccessory :=
  {| powerOn := JBool false;
     name := name lamp_accessory;
     service := service lamp_accessory;
     onCommand := onCommand lamp_accessory;
     offCommand := offCommand lamp_accessory;
     stateCommand := stateCommand lamp_accessory;
     onValue := toLowerCase (trim matching_chunk);
     exactMatch := JBool true;
     ssh := ssh lamp_accessory;
     switchService := switchService lamp_accessory;
     informationService := informationService lamp_accessory |}.

(** ** Vocabulary of the further properties *)

Definition isString (v : JsValue) : bool :=
  match v with
  | JStr _ => true
  | _ => false
  end.

(** The options of the transport calls among some effects. *)
Definition exec_options (out : list Effect) : list SshOptions :=
  flat_map (fun e => match e with Exec _ o => [o] | _ => [] end) out.

(** The events for which [setState], respectively [getState], registers
    a listener that calls the callback. *)
Definition answered_by_setState (ev : StreamEvent) : bool :=
  match ev with
  | Ev_error _ | Ev_finish => true
  | Ev_data _ | Ev_close | Ev_end => false
  end.

Definition answered_by_getState (ev : StreamEvent) : bool :=
  match ev with
  | Ev_error _ | Ev_data _ => true
  | Ev_finish | Ev_close | Ev_end => false
  end.

(** The calls of the hub that open a stream. *)
Definition opens_stream (a : Action) : bool :=
  match a with
  | call_setState _ | call_getState => true
  | call_identify | call_getServices
  | event_setState _ _ | event_getState _ => false
  end.

(** What one call of [getServices] attaches to the switch
    characteristic. *)
Definition attached_once (this : SshAccessory)
  : list (Characteristic * CharacteristicEventTypes * Handler) :=
  (On, SET, setState_bound)
  :: (if truthy (stateCommand this) then [(On, GET, getState_bound)] else []).

(** The three [setCharacteristic] calls of [getServices], on the list of
    values of the information service. *)
Definition information_values (vals : list (Characteristic * string))
  : list (Characteristic * string) :=
  values
    (setCharacteristic
       (setCharacteristic
          (setCharacteristic
             {| kind := AccessoryInformation; displayName := JUndefined;
                values := vals; listeners := [] |}
             Manufacturer "SSH Manufacturer")
          Model "SSH Model")
       SerialNumber "SSH Serial Number").

(** [getServices] called [n] times in a row. *)
Definition getServices_times (n : nat) (this : SshAccessory) : SshAccessory :=
  Nat.iter n (fun t => fst (getServices t)) this.

(** * Properties *)

(** Inverts [construct config = Normal this]: names the string that
    [config["on_value"] || "playing"] evaluates to and replaces [this] by
    the record. *)
Ltac construct_inv H v E :=
  unfold construct in H;
  destruct (or_else (config_at _ "on_value") (JStr "playing")) as [| | | |v| |]
    eqn:E; try discriminate H;
  injection H as <-; cbn [powerOn name service onCommand offCommand
    stateCommand onValue exactMatch ssh switchService informationService].

(** ** Strings *)

Section StringFacts.

Local Ltac by_cases_on c :=
  destruct c as [[] [] [] [] [] [] [] []]; vm_compute; reflexivity.

Lemma lowerChar_idem (c : ascii) : lowerChar (lowerChar c) = lowerChar c.
Proof. by_cases_on c. Qed.

Lemma isWhiteSpace_lowerChar (c : ascii) :
  isWhiteSpace (lowerChar c) = isWhiteSpace c.
Proof. by_cases_on c. Qed.

Lemma append_empty_r (s : string) : s +:+ "" = s.
Proof. induction s as [|c s IH]; simpl; [reflexivity | now rewrite IH]. Qed.

Lemma append_assoc (a b c : string) : (a +:+ b) +:+ c = a +:+ (b +:+ c).
Proof. induction a as [|x a IH]; simpl; [reflexivity | now rewrite IH]. Qed.

Lemma toLowerCase_idem (s : string) :
  toLowerCase (toLowerCase s) = toLowerCase s.
Proof.
  induction s as [|c s IH]; simpl; [reflexivity|].
  now rewrite lowerChar_idem, IH.
Qed.

Lemma trimStart_toLowerCase (s : string) :
  trimStart (toLowerCase s) = toLowerCase (trimStart s).
Proof.
  induction s as [|c s IH]; simpl; [reflexivity|].
  rewrite isWhiteSpace_lowerChar.
  destruct (isWhiteSpace c); [exact IH | reflexivity].
Qed.

Lemma trimEnd_toLowerCase (s : string) :
  trimEnd (toLowerCase s) = toLowerCase (trimEnd s).
Proof.
  induction s as [|c s IH]; simpl; [reflexivity|].
  rewrite IH, isWhiteSpace_lowerChar.
  destruct (trimEnd s); simpl; [|reflexivity].
  destruct (isWhiteSpace c); reflexivity.
Qed.

(** Trimming and lower-casing commute. *)
Lemma trim_toLowerCase (s : string) :
  trim (toLowerCase s) = toLowerCase (trim s).
Proof.
  unfold trim. now rewrite trimStart_toLowerCase, trimEnd_toLowerCase.
Qed.

Lemma trimStart_headOk (s : string) : headOk (trimStart s).
Proof.
  induction s as [|c s IH]; simpl; [exact I|].
  destruct (isWhiteSpace c) eqn:E; [exact IH | exact E].
Qed.

Lemma headOk_trimStart (s : string) : headOk s -> trimStart s = s.
Proof. destruct s as [|c s]; simpl; [reflexivity|]. now intros ->. Qed.

Lemma headOk_trimEnd (s : string) : headOk s -> headOk (trimEnd s).
Proof.
  destruct s as [|c s]; simpl; [exact id|]. intros E.
  destruct (trimEnd s); simpl; [rewrite E|]; exact E.
Qed.

Lemma trimEnd_idem (s : string) : trimEnd (trimEnd s) = trimEnd s.
Proof.
  induction s as [|c s IH]; simpl; [reflexivity|].
  destruct (trimEnd s) as [|d r] eqn:E.
  - destruct (isWhiteSpace c) eqn:W; simpl; [reflexivity | now rewrite W].
  - simpl in *. now rewrite IH.
Qed.

Lemma trim_idem (s : string) : trim (trim s) = trim s.
Proof.
  unfold trim.
  rewrite (headOk_trimStart (trimEnd (trimStart s))).
  - apply trimEnd_idem.
  - apply headOk_trimEnd, trimStart_headOk.
Qed.

Lemma allWhiteSpace_cons (c : ascii) (s : string) :
  allWhiteSpace (String c s) <-> isWhiteSpace c = true /\ allWhiteSpace s.
Proof.
  unfold allWhiteSpace; simpl. split.
  - intros H; inversion H; subst; split; assumption.
  - intros [H1 H2]; constructor; assumption.
Qed.

Lemma trimStart_white (w s : string) :
  allWhiteSpace w -> trimStart (w +:+ s) = trimStart s.
Proof.
  induction w as [|c w IH]; simpl; [reflexivity|].
  intros [-> H]%allWhiteSpace_cons. now apply IH.
Qed.

Lemma trimEnd_white (s w : string) :
  allWhiteSpace w -> trimEnd (s +:+ w) = trimEnd s.
Proof.
  intros Hw. induction s as [|c s IH]; simpl.
  - induction w as [|d w IHw]; simpl; [reflexivity|].
    apply allWhiteSpace_cons in Hw as [-> Hw]. now rewrite IHw.
  - now rewrite IH.
Qed.

(** White space around a string does not survive [trim]. *)
Lemma trim_white (w1 s w2 : string) :
  allWhiteSpace w1 -> allWhiteSpace w2 ->
  trim (w1 +:+ s +:+ w2) = trim s.
Proof.
  intros H1 H2. unfold trim. rewrite trimStart_white by assumption.
  clear w1 H1. induction s as [|c s IH]; simpl.
  - replace w2 with (w2 +:+ "") by apply append_empty_r.
    now rewrite trimStart_white.
  - destruct (isWhiteSpace c); [exact IH|].
    change (String c (s +:+ w2)) with (String c s +:+ w2).
    now apply trimEnd_white.
Qed.

Lemma prefix_occurs (p s : string) :
  String.prefix p s = true <-> exists post, s = p +:+ post.
Proof.
  revert s. induction p as [|c p IH]; intros s; simpl.
  - split; [intros _; now exists s | intros _; destruct s; reflexivity].
  - destruct s as [|d s]; [split; [discriminate | intros [? [=]]]|].
    simpl. destruct (ascii_dec c d) as [->|Hne].
    + rewrite IH. split; intros [post E]; exists post; congruence.
    + split; [discriminate | intros [post [= E _]]; congruence].
Qed.

Lemma indexOfFrom_range (i : Z) (s p : string) :
  indexOfFrom i s p = -1 \/ i <= indexOfFrom i s p.
Proof.
  revert i. induction s as [|c s IH]; intros i; cbn [indexOfFrom].
  - destruct p; lia.
  - destruct (String.prefix p (String c s)); [lia|].
    destruct (IH (i + 1)); lia.
Qed.

Lemma indexOfFrom_occurs (i : Z) (s p : string) :
  0 <= i -> (indexOfFrom i s p >? -1) = true <-> occursIn p s.
Proof.
  revert i. induction s as [|c s IH]; intros i Hi; cbn [indexOfFrom].
  - destruct p as [|d p].
    + split; [|intros _; apply Z.gtb_lt; lia].
      intros _. now exists "", "".
    + split; [discriminate|].
      intros (pre & post & H). destruct pre; discriminate.
  - destruct (String.prefix p (String c s)) eqn:E.
    + split; [|intros _; apply Z.gtb_lt; lia].
      intros _. apply prefix_occurs in E as [post E]. now exists "", post.
    + rewrite IH by lia. split.
      * intros (pre & post & ->). now exists (String c pre), post.
      * intros (pre & post & H). destruct pre as [|d pre].
        -- simpl in H. assert (String.prefix p (String c s) = true) as E'
             by (apply prefix_occurs; eauto). congruence.
        -- injection H as _ ->. now exists pre, post.
Qed.

(** [s.indexOf(p) > -1] says that [p] occurs in [s]. *)
Lemma indexOf_occurs (s p : string) :
  (indexOf s p >? -1) = true <-> occursIn p s.
Proof. apply indexOfFrom_occurs. lia. Qed.

End StringFacts.

(** ** The constructor *)

Lemma or_else_truthy (a b : JsValue) :
  truthy b = true -> truthy (or_else a b) = true.
Proof. unfold or_else. destruct (truthy a) eqn:E; [now rewrite E | easy]. Qed.

Lemma or_else_l (a b : JsValue) : truthy a = true -> or_else a b = a.
Proof. unfold or_else. now intros ->. Qed.

Lemma or_else_r (a b : JsValue) : truthy a = false -> or_else a b = b.
Proof. unfold or_else. now intros ->. Qed.

Lemma truthy_JStr (v : string) : truthy (JStr v) = true <-> v <> "".
Proof.
  simpl. destruct (String.eqb_spec v ""); simpl; split; intros; congruence.
Qed.

Lemma config_at_Some (config : gmap string JsValue) (k : string) (v : JsValue) :
  config !! k = Some v -> config_at config k = v.
Proof. unfold config_at. now intros ->. Qed.

Lemma config_at_None (config : gmap string JsValue) (k : string) :
  config !! k = None -> config_at config k = JUndefined.
Proof. unfold config_at. now intros ->. Qed.

(** The constructor returns normally exactly when [on_value] is falsy or
    a string. *)
Lemma construct_returns (config : gmap string JsValue) :
  (exists this, construct config = Normal this)
  <-> (truthy (config_at config "on_value") = false
       \/ exists v, config_at config "on_value" = JStr v).
Proof.
  unfold construct, or_else. split.
  - intros [this H].
    destruct (truthy (config_at config "on_value")) eqn:T; [right | now left].
    destruct (config_at config "on_value"); try discriminate H. eauto.
  - intros [T | [v E]].
    + rewrite T. eauto.
    + rewrite E. destruct (truthy (JStr v)); eauto.
Qed.

Lemma constructed_onValue (config : gmap string JsValue) (this : SshAccessory) :
  construct config = Normal this ->
  exists v, or_else (config_at config "on_value") (JStr "playing") = JStr v
            /\ onValue this = toLowerCase (trim v).
Proof. intros H. construct_inv H v E. eauto. Qed.

Lemma constructed_exactMatch (config : gmap string JsValue) (this : SshAccessory) :
  construct config = Normal this ->
  exactMatch this = or_else (config_at config "exact_match") (JBool true).
Proof. intros H. construct_inv H v E. reflexivity. Qed.

Lemma constructed_fields (config : gmap string JsValue) (this : SshAccessory) :
  construct config = Normal this ->
  powerOn this = JBool false
  /\ name this = config_at config "name"
  /\ onCommand this = config_at config "on"
  /\ offCommand this = config_at config "off"
  /\ stateCommand this = config_at config "state"
  /\ listeners (switchService this) = [].
Proof. intros H. construct_inv H v E. repeat split. Qed.

(** ** matchesString *)

(** What each branch of [matchesString] decides, on the argument as it is
    passed. *)
Lemma matchesString_spec (this : SshAccessory) (s : string) :
  matchesString this s = true
  <-> if truthy (exactMatch this) then s = onValue this
      else occursIn (onValue this) s.
Proof.
  unfold matchesString. destruct (truthy (exactMatch this)).
  - apply String.eqb_eq.
  - apply indexOf_occurs.
Qed.

(** The normal form of a stored [onValue]. *)
Lemma normal_form (v : string) :
  trim (toLowerCase (trim v)) = toLowerCase (trim v)
  /\ toLowerCase (toLowerCase (trim v)) = toLowerCase (trim v).
Proof.
  split; [|apply toLowerCase_idem].
  now rewrite trim_toLowerCase, trim_idem.
Qed.

Lemma constructed_exactMatch_truthy (config : gmap string JsValue)
    (this : SshAccessory) :
  construct config = Normal this -> truthy (exactMatch this) = true.
Proof.
  intros H. rewrite (constructed_exactMatch config this H).
  now apply or_else_truthy.
Qed.

Lemma constructed_matches_eq (config : gmap string JsValue)
    (this : SshAccessory) (s : string) :
  construct config = Normal this ->
  matchesString this s = true -> s = onValue this.
Proof.
  intros H M. apply matchesString_spec in M.
  now rewrite (constructed_exactMatch_truthy config this H) in M.
Qed.

(** [exact_match: false], like every falsy value, is replaced by [true]. *)
Lemma falsy_exact_match_becomes_true (config : gmap string JsValue)
    (this : SshAccessory) :
  construct config = Normal this ->
  truthy (config_at config "exact_match") = false ->
  exactMatch this = JBool true.
Proof.
  intros H F. rewrite (constructed_exactMatch config this H).
  now apply or_else_r.
Qed.

(** C8.  For every raw configuration, whatever it supplies as
    [exact_match] (the boolean [false] and every other falsy value
    included), the [exactMatch] field is truthy after construction, so
    [matchesString] always takes the equality branch: it is the test
    [match === this.onValue], and the [indexOf] branch is never run. *)
Theorem exactMatch_is_always_truthy (config : gmap string JsValue)
    (this : SshAccessory) :
  construct config = Normal this ->
  truthy (exactMatch this) = true
  /\ (forall s, matchesString this s = String.eqb s (onValue this)).
Proof.
  intros H.
  pose proof (constructed_exactMatch_truthy config this H) as T.
  split; [exact T|]. intros s. unfold matchesString. now rewrite T.
Qed.

Lemma exactMatch_is_always_truthy_witness :
  lamp !! "exact_match" = Some (JBool false)
  /\ construct lamp = Normal lamp_accessory
  /\ truthy (exactMatch lamp_accessory) = true
  /\ (forall s,
        matchesString lamp_accessory s = String.eqb s (onValue lamp_accessory)).
Proof.
  split; [vm_compute; reflexivity|]. split; [vm_compute; reflexivity|].
  apply (exactMatch_is_always_truthy lamp lamp_accessory).
  vm_compute; reflexivity.
Defined.

(** The end-to-end scenario of the specification: with
    [exact_match: false] and [on_value: "ON"], the state ["status: on"]
    contains the stored value and is still not a match. *)
Example lamp_status_on :
  construct lamp = Normal lamp_accessory
  /\ toLowerCase (trim ("Status: ON" +:+ nl)) = "status: on"
  /\ indexOf "status: on" (onValue lamp_accessory) = 8
  /\ matchesString lamp_accessory "status: on" = false.
Proof. repeat split; vm_compute; reflexivity. Qed.

(** What the [indexOf] branch decides, for an instance whose
    [exactMatch] field is falsy. *)
Lemma matchesString_substring_branch (this : SshAccessory) (s : string) :
  truthy (exactMatch this) = false ->
  (matchesString this s = true <-> occursIn (onValue this) s).
Proof. intros F. rewrite matchesString_spec. now rewrite F. Qed.

(** C1 on the code.  For every configuration that supplies [exact_match]
    as [false], the constructor stores [true] ([false || true]), so
    [matchesString] tests equality: a candidate that contains the stored
    [onValue] as a substring without being equal to it is rejected, also
    when it is already trimmed and lower-cased.  The claim says that it
    is accepted. *)
Theorem exact_match_false_is_ignored (config : gmap string JsValue)
    (this : SshAccessory) (s : string) :
  construct config = Normal this ->
  config !! "exact_match" = Some (JBool false) ->
  toLowerCase (trim s) = s ->
  occursIn (onValue this) s -> s <> onValue this ->
  exactMatch this = JBool true /\ matchesString this s = false.
Proof.
  intros H L _ _ Hne.
  split.
  - rewrite (constructed_exactMatch config this H), (config_at_Some _ _ _ L).
    reflexivity.
  - destruct (matchesString this s) eqn:M; [|reflexivity].
    apply (constructed_matches_eq config this s H) in M. contradiction.
Qed.

Lemma exact_match_false_is_ignored_witness :
  construct lamp = Normal lamp_accessory
  /\ lamp !! "exact_match" = Some (JBool false)
  /\ toLowerCase (trim ("Status: ON" +:+ nl)) = "status: on"
  /\ occursIn (onValue lamp_accessory) "status: on"
  /\ exactMatch lamp_accessory = JBool true
  /\ matchesString lamp_accessory "status: on" = false.
Proof.
  assert (construct lamp = Normal lamp_accessory) as H
    by (vm_compute; reflexivity).
  assert (lamp !! "exact_match" = Some (JBool false)) as L
    by (vm_compute; reflexivity).
  assert (occursIn (onValue lamp_accessory) "status: on") as O
    by (exists "status: ", ""; vm_compute; reflexivity).
  split; [exact H|]. split; [exact L|].
  split; [vm_compute; reflexivity|]. split; [exact O|].
  apply (exact_match_false_is_ignored lamp lamp_accessory "status: on" H L).
  - vm_compute; reflexivity.
  - exact O.
  - discriminate.
Defined.

(** C7, as stated, fails: with [exact_match: true] and the candidate
    ["ON"], the candidate trimmed and lower-cased equals the stored value
    ["on"], and [matchesString] returns [false]. *)
Lemma exact_match_true_counterexample :
  lamp_exact !! "exact_match" = Some (JBool true)
  /\ exists this,
       construct lamp_exact = Normal this
       /\ ~ (matchesString this "ON" = true
             <-> toLowerCase (trim "ON") = onValue this).
Proof.
  split; [vm_compute; reflexivity|].
  exists lamp_accessory. split; [vm_compute; reflexivity|].
  intros [_ H].
  assert (matchesString lamp_accessory "ON" = true) as M.
  { apply H. vm_compute; reflexivity. }
  vm_compute in M. discriminate M.
Qed.

(** C7, amended.  For every configuration in which [exact_match] is
    [true] or absent, and every candidate string [s], [matchesString(s)]
    returns [true] if and only if [s], as it is passed, equals the stored
    [onValue]; applied to a candidate that was trimmed and lower-cased
    first, as the [data] listener of [getState] does, it returns [true]
    if and only if the candidate trimmed and lower-cased equals the
    stored [onValue]. *)
Theorem matchesString_exact (config : gmap string JsValue)
    (this : SshAccessory) (s : string) :
  construct config = Normal this ->
  config !! "exact_match" = Some (JBool true)
  \/ config !! "exact_match" = None ->
  (matchesString this s = true <-> s = onValue this)
  /\ (matchesString this (toLowerCase (trim s)) = true
      <-> toLowerCase (trim s) = onValue this).
Proof.
  intros H _.
  pose proof (constructed_exactMatch_truthy config this H) as T.
  split; rewrite matchesString_spec; now rewrite T.
Qed.

Lemma matchesString_exact_witness :
  construct lamp_exact = Normal lamp_accessory
  /\ lamp_exact !! "exact_match" = Some (JBool true)
  /\ (matchesString lamp_accessory " On " = true
      <-> " On " = onValue lamp_accessory)
  /\ (matchesString lamp_accessory (toLowerCase (trim " On ")) = true
      <-> toLowerCase (trim " On ") = onValue lamp_accessory).
Proof.
  split; [vm_compute; reflexivity|]. split; [vm_compute; reflexivity|].
  apply (matchesString_exact lamp_exact lamp_accessory " On ").
  - vm_compute; reflexivity.
  - left. vm_compute; reflexivity.
Defined.

(** ** The stored onValue *)

(** White space around the configured value and the case of its letters
    do not reach the stored value. *)
Lemma onValue_ignores_padding_and_case (w1 v w2 v' : string) :
  allWhiteSpace w1 -> allWhiteSpace w2 ->
  toLowerCase v = toLowerCase v' ->
  toLowerCase (trim (w1 +:+ v +:+ w2)) = toLowerCase (trim v').
Proof.
  intros H1 H2 E. rewrite trim_white by assumption.
  now rewrite <- !trim_toLowerCase, E.
Qed.

(** C6, as stated, fails: for a configuration whose [on_value] is the
    empty string the stored value is ["playing"], not the empty string
    that trimming and lower-casing [on_value] gives. *)
Lemma empty_on_value_counterexample :
  let config : gmap string JsValue := <["on_value" := JStr ""]> lamp in
  config !! "on_value" = Some (JStr "")
  /\ exists this,
       construct config = Normal this
       /\ onValue this = "playing"
       /\ onValue this <> toLowerCase (trim "").
Proof.
  split; [vm_compute; reflexivity|].
  eexists. split; [vm_compute; reflexivity|].
  split; [reflexivity | discriminate].
Qed.

(** C6, amended.  For every configuration whose [on_value] is a
    non-empty string, the stored [onValue] equals that string trimmed and
    lower-cased, whatever its casing and surrounding white space; the
    stored value is itself unchanged by trimming and by lower-casing; and
    when [on_value] is absent (or falsy, as the empty string is) the
    stored [onValue] is ["playing"]. *)
Theorem onValue_stored_normalized (config : gmap string JsValue)
    (this : SshAccessory) :
  construct config = Normal this ->
  (forall v, config !! "on_value" = Some (JStr v) -> v <> "" ->
             onValue this = toLowerCase (trim v))
  /\ (trim (onValue this) = onValue this
      /\ toLowerCase (onValue this) = onValue this)
  /\ (config !! "on_value" = None -> onValue this = "playing")
  /\ (truthy (config_at config "on_value") = false ->
      onValue this = "playing").
Proof.
  intros H.
  destruct (constructed_onValue config this H) as (u & E & ->).
  assert (truthy (config_at config "on_value") = false ->
          toLowerCase (trim u) = "playing") as F.
  { intros T. rewrite or_else_r in E by exact T. now injection E as <-. }
  split; [|split; [|split]].
  - intros v L Hv. rewrite (config_at_Some _ _ _ L) in E.
    rewrite or_else_l in E by now apply truthy_JStr.
    now injection E as <-.
  - apply normal_form.
  - intros L. apply F. now rewrite (config_at_None _ _ L).
  - exact F.
Qed.

Lemma onValue_stored_normalized_witness :
  let config : gmap string JsValue := <["on_value" := JStr "  ON  "]> lamp in
  construct config = Normal lamp_accessory
  /\ config !! "on_value" = Some (JStr "  ON  ")
  /\ onValue lamp_accessory = "on"
  /\ onValue lamp_accessory = toLowerCase (trim "  ON  ").
Proof.
  intros config.
  assert (construct config = Normal lamp_accessory) as H
    by (vm_compute; reflexivity).
  split; [exact H|]. split; [vm_compute; reflexivity|].
  split; [reflexivity|].
  destruct (onValue_stored_normalized config lamp_accessory H) as (A & _).
  apply (A "  ON  ").
  - vm_compute; reflexivity.
  - discriminate.
Defined.

(** ** getServices *)

Lemma getServices_listeners (this : SshAccessory) :
  listeners (switchService (fst (getServices this)))
  = (listeners (switchService this)
     ++ (On, SET, setState_bound)
        :: (if truthy (stateCommand this)
            then [(On, GET, getState_bound)] else []))%list.
Proof.
  unfold getServices. cbn [fst switchService].
  destruct (truthy (stateCommand this)); cbn [on_ listeners].
  - now rewrite <- app_assoc.
  - reflexivity.
Qed.

Lemma constructed_listeners (config : gmap string JsValue)
    (this : SshAccessory) :
  construct config = Normal this ->
  listeners (switchService (fst (getServices this)))
  = (On, SET, setState_bound)
    :: (if truthy (config_at config "state")
        then [(On, GET, getState_bound)] else []).
Proof.
  intros H. rewrite getServices_listeners.
  destruct (constructed_fields config this H) as (_ & _ & _ & _ & -> & ->).
  reflexivity.
Qed.

(** C5, as stated, fails: a configuration that supplies [state] as the
    empty string has a state command that is present, and the get
    handler is not attached. *)
Lemma empty_state_counterexample :
  let config : gmap string JsValue := <["state" := JStr ""]> lamp in
  exists this,
    construct config = Normal this
    /\ ~ (In (On, GET, getState_bound)
             (listeners (switchService (fst (getServices this))))
          <-> config !! "state" <> None).
Proof.
  eexists. split; [vm_compute; reflexivity|].
  intros [_ H].
  assert (In (On, GET, getState_bound) [(On, SET, setState_bound)]) as M.
  { apply H. vm_compute. discriminate. }
  destruct M as [M | []]. discriminate M.
Qed.

(** C5, amended.  For every configuration in which [state] is absent,
    [getServices] attaches only the set handler to the switch
    characteristic; the set handler is always attached, and the get
    handler is attached exactly when the configured [state] is truthy
    (supplied, and not the empty string or another falsy value). *)
Theorem get_registered_iff_state_truthy (config : gmap string JsValue)
    (this : SshAccessory) :
  construct config = Normal this ->
  let attached := listeners (switchService (fst (getServices this))) in
  (config !! "state" = None -> attached = [(On, SET, setState_bound)])
  /\ In (On, SET, setState_bound) attached
  /\ (In (On, GET, getState_bound) attached
      <-> truthy (config_at config "state") = true)
  /\ attached
     = (On, SET, setState_bound)
       :: (if truthy (config_at config "state")
           then [(On, GET, getState_bound)] else []).
Proof.
  intros H attached. subst attached.
  rewrite (constructed_listeners config this H).
  split; [|split; [|split; [split|]]].
  - intros L. now rewrite (config_at_None _ _ L).
  - now left.
  - destruct (truthy (config_at config "state")); [reflexivity|].
    intros [M | []]. discriminate M.
  - intros ->. right. now left.
  - reflexivity.
Qed.

Lemma get_registered_iff_state_truthy_witness :
  construct lamp = Normal lamp_accessory
  /\ truthy (config_at lamp "state") = true
  /\ listeners (switchService (fst (getServices lamp_accessory)))
     = [(On, SET, setState_bound); (On, GET, getState_bound)].
Proof.
  assert (construct lamp = Normal lamp_accessory) as H
    by (vm_compute; reflexivity).
  split; [exact H|]. split; [vm_compute; reflexivity|].
  apply (get_registered_iff_state_truthy lamp lamp_accessory H).
Defined.

(** C10.  An empty string is treated as an absent value: a configuration
    whose [on_value] is the empty string yields the stored [onValue]
    ["playing"], the very instance that the configuration without
    [on_value] yields; a configuration whose [state] is the empty string
    gets only the set handler attached by [getServices], as the
    configuration without [state] does. *)
Theorem empty_string_as_absent (config : gmap string JsValue) :
  (config !! "on_value" = Some (JStr "") ->
   exists this,
     construct config = Normal this
     /\ onValue this = "playing"
     /\ construct (delete "on_value" config) = Normal this)
  /\ (config !! "state" = Some (JStr "") ->
      forall this,
        construct config = Normal this ->
        listeners (switchService (fst (getServices this)))
        = [(On, SET, setState_bound)]
        /\ exists this',
             construct (delete "state" config) = Normal this'
             /\ listeners (switchService (fst (getServices this')))
                = listeners (switchService (fst (getServices this)))).
Proof.
  split.
  - intros L.
    assert (forall k, k <> "on_value" ->
              config_at (delete "on_value" config) k = config_at config k) as D.
    { intros k Hk. unfold config_at. now rewrite lookup_delete_ne. }
    assert (config_at (delete "on_value" config) "on_value" = JUndefined) as N.
    { unfold config_at. now rewrite lookup_delete_eq. }
    unfold construct. rewrite N, (config_at_Some _ _ _ L).
    cbn [or_else truthy String.eqb negb].
    eexists. split; [reflexivity|]. split; [reflexivity|].
    now rewrite !D by discriminate.
  - intros L this H.
    assert (forall k, k <> "state" ->
              config_at (delete "state" config) k = config_at config k) as D.
    { intros k Hk. unfold config_at. now rewrite lookup_delete_ne. }
    assert (config_at (delete "state" config) "state" = JUndefined) as N.
    { unfold config_at. now rewrite lookup_delete_eq. }
    rewrite (constructed_listeners config this H), (config_at_Some _ _ _ L).
    split; [reflexivity|].
    destruct (proj2 (construct_returns (delete "state" config))) as [this' H'].
    { rewrite D by discriminate.
      now apply construct_returns; exists this. }
    exists this'. split; [exact H'|].
    now rewrite (constructed_listeners _ this' H'), N.
Qed.

Lemma empty_string_as_absent_witness :
  let config : gmap string JsValue :=
    <["on_value" := JStr ""]> (<["state" := JStr ""]> lamp) in
  config !! "on_value" = Some (JStr "")
  /\ config !! "state" = Some (JStr "")
  /\ exists this,
       construct config = Normal this
       /\ onValue this = "playing"
       /\ listeners (switchService (fst (getServices this)))
          = [(On, SET, setState_bound)].
Proof.
  intros config.
  assert (config !! "on_value" = Some (JStr "")) as L1
    by (vm_compute; reflexivity).
  assert (config !! "state" = Some (JStr "")) as L2
    by (vm_compute; reflexivity).
  split; [exact L1|]. split; [exact L2|].
  destruct (empty_string_as_absent config) as [A B].
  destruct (A L1) as (this & H & V & _).
  exists this. split; [exact H|]. split; [exact V|].
  exact (proj1 (B L2 this H)).
Defined.

(** ** The instance over its lifetime *)

Lemma sameData_refl (a : SshAccessory) : sameData a a.
Proof. repeat split. Qed.

Lemma sameData_trans (a b c : SshAccessory) :
  sameData a b -> sameData b c -> sameData a c.
Proof.
  unfold sameData. intros (?&?&?&?&?&?&?&?&?) (?&?&?&?&?&?&?&?&?).
  repeat split; congruence.
Qed.

Section Lifetime.

Variable sourceMatch : string -> bool.

(** No method and no listener assigns a data field; [getServices]
    updates the two services. *)
Lemma step_sameData (this : SshAccessory) (a : Action) :
  sameData (fst (step sourceMatch this a)) this.
Proof. destruct a; repeat split. Qed.

Lemma run_sameData (actions : list Action) (this : SshAccessory) :
  sameData (fst (run sourceMatch this actions)) this.
Proof.
  revert this. induction actions as [|a rest IH]; intros this.
  - apply sameData_refl.
  - cbn [run]. pose proof (step_sameData this a) as S1.
    destruct (step sourceMatch this a) as [this' out]. cbn [fst] in S1.
    pose proof (IH this') as S2.
    destruct (run sourceMatch this' rest) as [this'' out']. cbn [fst] in *.
    exact (sameData_trans _ _ _ S2 S1).
Qed.

Lemma reachable_fields (config : gmap string JsValue) (this : SshAccessory) :
  reachable sourceMatch config this ->
  powerOn this = JBool false
  /\ name this = config_at config "name"
  /\ onCommand this = config_at config "on"
  /\ offCommand this = config_at config "off"
  /\ stateCommand this = config_at config "state"
  /\ truthy (exactMatch this) = true.
Proof.
  intros (this0 & actions & H & <-).
  destruct (run_sameData actions this0) as (-> & -> & _ & -> & -> & -> & _ & -> & _).
  destruct (constructed_fields config this0 H) as (-> & -> & -> & -> & -> & _).
  repeat split. exact (constructed_exactMatch_truthy config this0 H).
Qed.

Lemma constructed_reachable (config : gmap string JsValue)
    (this : SshAccessory) :
  construct config = Normal this -> reachable sourceMatch config this.
Proof. intros H. now exists this, []. Qed.

End Lifetime.

(** ** setState *)

Lemma setState_exec (this : SshAccessory) (v : JsValue) :
  setState this v
  = [Exec (if truthy v then onCommand this else offCommand this) (ssh this)].
Proof. unfold setState, targetState. destruct (truthy v); reflexivity. Qed.

Lemma targetState_cases (v : JsValue) :
  targetState v = "on" \/ targetState v = "off".
Proof. unfold targetState. destruct (truthy v); auto. Qed.

(** C3.  For every configuration and every state that it can lead to,
    [setState(true)] calls the transport with exactly the configured
    [on] command and [setState(false)] with exactly the configured [off]
    command; whatever the value passed, a set operation sends one command
    and it is one of those two, its stream listeners send none; and on
    [finish] the callback is called with no error. *)
Theorem setState_sends_configured_command (sourceMatch : string -> bool)
    (config : gmap string JsValue) (this : SshAccessory) :
  reachable sourceMatch config this ->
  execs (setState this (JBool true)) = [config_at config "on"]
  /\ execs (setState this (JBool false)) = [config_at config "off"]
  /\ (forall v,
        execs (setState this v)
        = [if truthy v then config_at config "on" else config_at config "off"])
  /\ (forall v ev, execs (setState_on this v ev) = [])
  /\ (forall v, callbacks (setState_on this v Ev_finish) = [[JUndefined]]).
Proof.
  intros R.
  destruct (reachable_fields sourceMatch config this R)
    as (_ & _ & On_ & Off_ & _).
  assert (forall v,
            execs (setState this v)
            = [if truthy v then config_at config "on"
               else config_at config "off"]) as E.
  { intros v. rewrite setState_exec, <- On_, <- Off_. reflexivity. }
  split; [exact (E (JBool true))|]. split; [exact (E (JBool false))|].
  split; [exact E|]. split.
  - intros v [err|text| | |]; reflexivity.
  - reflexivity.
Qed.

Lemma setState_sends_configured_command_witness :
  reachable matchesString_pattern lamp (fst (getServices lamp_accessory))
  /\ execs (setState (fst (getServices lamp_accessory)) (JBool true))
     = [JStr "relay on"]
  /\ execs (setState (fst (getServices lamp_accessory)) (JBool false))
     = [JStr "relay off"].
Proof.
  assert (reachable matchesString_pattern lamp
            (fst (getServices lamp_accessory))) as R.
  { exists lamp_accessory, [call_getServices].
    split; vm_compute; reflexivity. }
  split; [exact R|].
  destruct (setState_sends_configured_command matchesString_pattern lamp
              (fst (getServices lamp_accessory)) R) as (A & B & _).
  split; [exact A | exact B].
Defined.

(** ** The error listeners *)

Lemma occursIn_middle (pre sub post : string) :
  occursIn sub (pre +:+ sub +:+ post).
Proof. now exists pre, post. Qed.

Lemma occursIn_end (pre sub : string) : occursIn sub (pre +:+ sub).
Proof. exists pre, "". now rewrite append_empty_r. Qed.

(** [err || new Error(...)] in both listeners: a truthy argument is
    passed on as it is, a falsy one is replaced. *)
Lemma error_listeners (sourceMatch : string -> bool)
    (this : SshAccessory) (powerOn_ err : JsValue) :
  callbacks (setState_on this powerOn_ (Ev_error err))
  = [[if truthy err then err
      else JError ("Error setting " +:+ ToString (name this) +:+ " to "
                   +:+ targetState powerOn_)]]
  /\ callbacks (getState_on sourceMatch this (Ev_error err))
     = [[if truthy err then err
         else JError ("Error getting " +:+ ToString (name this)
                      +:+ " state")]].
Proof. split; reflexivity. Qed.

Lemma isObject_truthy (v : JsValue) : isObject v = true -> truthy v = true.
Proof. destruct v; simpl; congruence. Qed.

(** C4.  On an [error] event of the stream of [setState] or of
    [getState], the callback receives an error: the object that the
    transport passed, itself, when it passed one; when it passed [null]
    or [undefined], a new [Error] whose message contains the accessory
    name and, for [setState], ends with the target state: ["on"] when the
    requested value is truthy, ["off"] when it is falsy. *)
Theorem error_event_reaches_callback (sourceMatch : string -> bool)
    (this : SshAccessory) (powerOn_ err : JsValue) :
  (isObject err = true ->
   callbacks (setState_on this powerOn_ (Ev_error err)) = [[err]]
   /\ callbacks (getState_on sourceMatch this (Ev_error err)) = [[err]])
  /\ (err = JNull \/ err = JUndefined ->
      let target := if truthy powerOn_ then "on" else "off" in
      exists m_set m_get,
        callbacks (setState_on this powerOn_ (Ev_error err))
        = [[JError m_set]]
        /\ m_set
           = "Error setting " +:+ ToString (name this) +:+ " to " +:+ target
        /\ occursIn (ToString (name this)) m_set
        /\ occursIn target m_set
        /\ callbacks (getState_on sourceMatch this (Ev_error err))
           = [[JError m_get]]
        /\ m_get = "Error getting " +:+ ToString (name this) +:+ " state"
        /\ occursIn (ToString (name this)) m_get).
Proof.
  destruct (error_listeners sourceMatch this powerOn_ err) as [S G].
  rewrite S, G. split.
  - intros O. now rewrite (isObject_truthy err O).
  - intros N target.
    assert (truthy err = false) as -> by (destruct N as [-> | ->]; reflexivity).
    assert (targetState powerOn_ = target) as ->
      by (unfold targetState, target; destruct (truthy powerOn_); reflexivity).
    eexists _, _. split; [reflexivity|]. split; [reflexivity|].
    split; [apply occursIn_middle|].
    split.
    { rewrite <- append_assoc, <- append_assoc. apply occursIn_end. }
    split; [reflexivity|]. split; [reflexivity | apply occursIn_middle].
Qed.

Lemma error_event_reaches_callback_witness :
  callbacks (setState_on lamp_accessory (JBool true)
               (Ev_error (JObj 1 "Error: ECONNREFUSED")))
  = [[JObj 1 "Error: ECONNREFUSED"]]
  /\ callbacks (setState_on lamp_accessory (JBool true) (Ev_error JNull))
     = [[JError "Error setting Lamp to on"]]
  /\ callbacks (setState_on lamp_accessory (JBool false)
                  (Ev_error JUndefined))
     = [[JError "Error setting Lamp to off"]]
  /\ callbacks (getState_on matchesString_pattern lamp_accessory
                  (Ev_error JNull))
     = [[JError "Error getting Lamp state"]].
Proof.
  split.
  { apply (proj1 (error_event_reaches_callback matchesString_pattern
                    lamp_accessory (JBool true)
                    (JObj 1 "Error: ECONNREFUSED"))).
    reflexivity. }
  destruct (proj2 (error_event_reaches_callback matchesString_pattern
                     lamp_accessory (JBool true) JNull)
              (or_introl eq_refl))
    as (m1 & g1 & E1 & -> & _ & _ & G1 & -> & _).
  destruct (proj2 (error_event_reaches_callback matchesString_pattern
                     lamp_accessory (JBool false) JUndefined)
              (or_intror eq_refl))
    as (m2 & g2 & E2 & -> & _).
  split; [exact E1|]. split; [exact E2 | exact G1].
Defined.

(** The copy in [src/unnamed/part_000] words the message of [getState]
    differently; it contains the name as well. *)
Lemma Part000_error_event (this : SshAccessory) (err : JsValue) :
  (isObject err = true ->
   callbacks (Part000.getState_on this (Ev_error err)) = [[err]])
  /\ (err = JNull \/ err = JUndefined ->
      exists m,
        callbacks (Part000.getState_on this (Ev_error err)) = [[JError m]]
        /\ occursIn (ToString (name this)) m).
Proof.
  split.
  - intros O. destruct err; try discriminate O; reflexivity.
  - intros N. exists ("Error getting state of " +:+ ToString (name this)).
    split; [destruct N as [-> | ->]; reflexivity | apply occursIn_end].
Qed.

(** ** The data listener of getState *)

Lemma reachable_sameData (sourceMatch : string -> bool)
    (config : gmap string JsValue) (this : SshAccessory) :
  reachable sourceMatch config this ->
  exists this0, construct config = Normal this0 /\ sameData this this0.
Proof.
  intros (this0 & actions & H & <-). exists this0.
  split; [exact H | apply run_sameData].
Qed.

(** In [src/unnamed/part_000] every chunk is answered with the match
    predicate applied to the chunk text trimmed and lower-cased. *)
Lemma Part000_data (this : SshAccessory) (text : string) :
  callbacks (Part000.getState_on this (Ev_data text))
  = [[JUndefined; JBool (matchesString this (toLowerCase (trim text)))]].
Proof. reflexivity. Qed.

(** In [src/src/accessory.ts] that is the answer for the chunks in which
    the pattern made from the method text is not found. *)
Lemma data_without_source_match (sourceMatch : string -> bool)
    (this : SshAccessory) (text : string) :
  sourceMatch text = false ->
  callbacks (getState_on sourceMatch this (Ev_data text))
  = [[JUndefined; JBool (matchesString this (toLowerCase (trim text)))]].
Proof. intros F. cbn [getState_on]. now rewrite F. Qed.

Lemma data_with_source_match (sourceMatch : string -> bool)
    (this : SshAccessory) (text : string) :
  sourceMatch text = true ->
  callbacks (getState_on sourceMatch this (Ev_data text))
  = [[JUndefined; powerOn this]].
Proof. intros T. cbn [getState_on]. now rewrite T. Qed.

(** Every pattern of the fragment is found in some text. *)
Lemma sample_matchAt (atoms : list SourcePattern.Atom) :
  SourcePattern.matchAt atoms (SourcePattern.sample atoms) = true.
Proof.
  induction atoms as [|[c|] atoms IH]; cbn; [reflexivity | |exact IH].
  now rewrite Ascii.eqb_refl.
Qed.

Lemma matchAt_search (atoms : list SourcePattern.Atom) (s : string) :
  SourcePattern.matchAt atoms s = true -> SourcePattern.search atoms s = true.
Proof. intros M. destruct s; cbn [SourcePattern.search]; now rewrite M. Qed.

Lemma sample_found (text : string) (atoms : list SourcePattern.Atom) :
  SourcePattern.parse text = Some atoms ->
  SourcePattern.test text (SourcePattern.sample atoms) = Some true.
Proof.
  intros P. unfold SourcePattern.test. rewrite P. f_equal.
  apply matchAt_search, sample_matchAt.
Qed.

(** The pattern of the method text is not found in the output of the
    scenario of the specification, and is found in [matching_chunk]. *)
Example pattern_on_chunks :
  matchesString_pattern ("Status: ON" +:+ nl) = false
  /\ matchesString_pattern matching_chunk = true.
Proof. split; vm_compute; reflexivity. Qed.

(** C2 on [src/src/accessory.ts]: a chunk in which the pattern made from
    the method text is found is answered with the [powerOn] field, which
    is [false], and not with the match predicate applied to the state:
    when the configured [on_value] is the text of the chunk, the
    predicate holds of the state and the callback receives [false]. *)
Theorem data_listener_reports_powerOn (sourceMatch : string -> bool)
    (config : gmap string JsValue) (this : SshAccessory) (text : string) :
  reachable sourceMatch config this ->
  config !! "on_value" = Some (JStr text) -> text <> "" ->
  sourceMatch text = true ->
  matchesString this (toLowerCase (trim text)) = true
  /\ callbacks (getState_on sourceMatch this (Ev_data text))
     = [[JUndefined; JBool false]].
Proof.
  intros R L Hne M.
  destruct (reachable_fields sourceMatch config this R) as (P & _ & _ & _ & _ & T).
  destruct (reachable_sameData sourceMatch config this R)
    as (this0 & H & (_ & _ & _ & _ & _ & _ & V & _)).
  destruct (constructed_onValue config this0 H) as (u & E & V0).
  rewrite (config_at_Some _ _ _ L) in E.
  rewrite or_else_l in E by now apply truthy_JStr.
  injection E as <-.
  split.
  - apply matchesString_spec. rewrite T. congruence.
  - rewrite data_with_source_match by exact M. now rewrite P.
Qed.

Lemma data_listener_reports_powerOn_witness :
  reachable matchesString_pattern lamp_echo lamp_echo_accessory
  /\ matchesString_pattern matching_chunk = true
  /\ matchesString lamp_echo_accessory (toLowerCase (trim matching_chunk))
     = true
  /\ callbacks (getState_on matchesString_pattern lamp_echo_accessory
                  (Ev_data matching_chunk))
     = [[JUndefined; JBool false]].
Proof.
  assert (reachable matchesString_pattern lamp_echo lamp_echo_accessory) as R.
  { exists lamp_echo_accessory, []. split; vm_compute; reflexivity. }
  assert (matchesString_pattern matching_chunk = true) as M
    by (vm_compute; reflexivity).
  split; [exact R|]. split; [exact M|].
  apply (data_listener_reports_powerOn matchesString_pattern lamp_echo
           lamp_echo_accessory matching_chunk R).
  - vm_compute; reflexivity.
  - vm_compute; discriminate.
  - exact M.
Defined.

(** C9.  The field [powerOn] is initialized to [false] and no method and
    no stream listener assigns it, so it is [false] in every state that a
    configuration can lead to; whenever the data listener of [getState]
    takes the branch that reports [powerOn], the callback receives
    [false], whatever the chunk says. *)
Theorem powerOn_is_always_false (sourceMatch : string -> bool)
    (config : gmap string JsValue) (this : SshAccessory) :
  reachable sourceMatch config this ->
  powerOn this = JBool false
  /\ (forall a, powerOn (fst (step sourceMatch this a)) = powerOn this)
  /\ (forall text,
        sourceMatch text = true ->
        callbacks (getState_on sourceMatch this (Ev_data text))
        = [[JUndefined; JBool false]]).
Proof.
  intros R.
  destruct (reachable_fields sourceMatch config this R) as (P & _).
  split; [exact P|]. split.
  - intros a. apply (step_sameData sourceMatch this a).
  - intros text M. rewrite data_with_source_match by exact M. now rewrite P.
Qed.

Lemma powerOn_is_always_false_witness :
  let actions :=
    [call_getServices; call_identify; call_setState (JBool true);
     event_setState (JBool true) Ev_finish; call_getState;
     event_getState (Ev_data matching_chunk)] in
  let this := fst (run matchesString_pattern lamp_accessory actions) in
  reachable matchesString_pattern lamp this
  /\ matchesString_pattern matching_chunk = true
  /\ powerOn this = JBool false
  /\ callbacks (getState_on matchesString_pattern this
                  (Ev_data matching_chunk))
     = [[JUndefined; JBool false]].
Proof.
  intros actions this.
  assert (reachable matchesString_pattern lamp this) as R.
  { exists lamp_accessory, actions. split; [vm_compute|]; reflexivity. }
  assert (matchesString_pattern matching_chunk = true) as M
    by (vm_compute; reflexivity).
  split; [exact R|]. split; [exact M|].
  destruct (powerOn_is_always_false matchesString_pattern lamp this R)
    as (P & _ & D).
  split; [exact P | exact (D matching_chunk M)].
Defined.

(** * Further properties of the class *)

(** ** The constructor and the match predicate *)

(** X1.  The constructor throws exactly when [on_value] is truthy and
    not a string (a number other than 0, [true], an object): then
    [this.onValue.trim] is not a function.  In every other case it
    returns an instance. *)
Theorem constructor_throws_on_non_string_on_value
    (config : gmap string JsValue) :
  let on_value := config_at config "on_value" in
  if truthy on_value && negb (isString on_value)
  then construct config
       = ThrowTypeError "this.onValue.trim is not a function"
  else exists this, construct config = Normal this.
Proof.
  cbn zeta. unfold construct, or_else.
  destruct (config_at config "on_value") as [| |b|n|s|r t|m]; cbn [truthy isString negb andb].
  - eauto.
  - eauto.
  - destruct b; cbn; eauto.
  - destruct (n =? 0); cbn; eauto.
  - rewrite andb_false_r. destruct (negb (String.eqb s "")); eauto.
  - reflexivity.
  - reflexivity.
Qed.

(** X2.  Whatever [exactMatch] holds, a candidate that [matchesString]
    accepts contains the stored [onValue], and the stored [onValue] is
    itself accepted. *)
Theorem matchesString_sound_and_reflexive (this : SshAccessory) :
  (forall s, matchesString this s = true -> occursIn (onValue this) s)
  /\ matchesString this (onValue this) = true.
Proof.
  split.
  - intros s M. apply matchesString_spec in M.
    destruct (truthy (exactMatch this)); [|exact M].
    subst s. exists "", "". cbn. now rewrite append_empty_r.
  - apply matchesString_spec.
    destruct (truthy (exactMatch this)); [reflexivity|].
    exists "", "". cbn. now rewrite append_empty_r.
Qed.

Lemma matchesString_sound_and_reflexive_witness :
  matchesString lamp_substring "status: on" = true
  /\ occursIn (onValue lamp_substring) "status: on"
  /\ matchesString lamp_accessory (onValue lamp_accessory) = true.
Proof.
  assert (matchesString lamp_substring "status: on" = true) as M
    by (vm_compute; reflexivity).
  split; [exact M|].
  destruct (matchesString_sound_and_reflexive lamp_substring) as [A _].
  destruct (matchesString_sound_and_reflexive lamp_accessory) as [_ B].
  split; [exact (A "status: on" M) | exact B].
Defined.

Lemma constructed_matches (config : gmap string JsValue)
    (this : SshAccessory) (s : string) :
  construct config = Normal this ->
  matchesString this s = true <-> s = onValue this.
Proof.
  intros H. rewrite matchesString_spec.
  now rewrite (constructed_exactMatch_truthy config this H).
Qed.

(** X3.  The answer of [getState] compares the output of the state
    command with the configured [on_value] up to surrounding white space
    and case: for a configuration whose [on_value] is a non-empty string
    [v], the [data] listener of [src/unnamed/part_000] answers [true] to
    a chunk [t] exactly when [t] and [v] are equal after trimming and
    lower-casing, and so does the listener of [src/src/accessory.ts] for
    every chunk in which the pattern of the method text is not found. *)
Theorem data_answer_ignores_case_and_padding (sourceMatch : string -> bool)
    (config : gmap string JsValue) (this : SshAccessory) (v t : string) :
  construct config = Normal this ->
  config !! "on_value" = Some (JStr v) -> v <> "" ->
  exists answer,
    callbacks (Part000.getState_on this (Ev_data t))
    = [[JUndefined; JBool answer]]
    /\ (sourceMatch t = false ->
        callbacks (getState_on sourceMatch this (Ev_data t))
        = [[JUndefined; JBool answer]])
    /\ (answer = true <-> toLowerCase (trim t) = toLowerCase (trim v)).
Proof.
  intros H L Hv.
  exists (matchesString this (toLowerCase (trim t))).
  split; [reflexivity|]. split.
  - intros F. now apply data_without_source_match.
  - rewrite (constructed_matches config this _ H).
    destruct (constructed_onValue config this H) as (u & E & ->).
    rewrite (config_at_Some _ _ _ L) in E.
    rewrite or_else_l in E by now apply truthy_JStr.
    now injection E as <-.
Qed.

Lemma data_answer_ignores_case_and_padding_witness :
  let config : gmap string JsValue := <["on_value" := JStr "  ON  "]> lamp in
  let chunk := "On" +:+ nl in
  construct config = Normal lamp_accessory
  /\ matchesString_pattern chunk = false
  /\ callbacks (Part000.getState_on lamp_accessory (Ev_data chunk))
     = [[JUndefined; JBool true]]
  /\ callbacks (getState_on matchesString_pattern lamp_accessory
                  (Ev_data chunk))
     = [[JUndefined; JBool true]].
Proof.
  intros config chunk.
  assert (construct config = Normal lamp_accessory) as H
    by (vm_compute; reflexivity).
  assert (matchesString_pattern chunk = false) as F
    by (vm_compute; reflexivity).
  split; [exact H|]. split; [exact F|].
  destruct (data_answer_ignores_case_and_padding matchesString_pattern
              config lamp_accessory "  ON  " chunk H)
    as (answer & A & B & C).
  - vm_compute; reflexivity.
  - discriminate.
  - assert (answer = true) as -> by (apply C; vm_compute; reflexivity).
    split; [exact A | exact (B F)].
Defined.

Lemma trimStart_empty (s : string) : trimStart s = "" <-> allWhiteSpace s.
Proof.
  induction s as [|c s IH]; cbn [trimStart].
  - split; [intros _; constructor | reflexivity].
  - rewrite allWhiteSpace_cons. destruct (isWhiteSpace c).
    + rewrite IH. tauto.
    + split; [discriminate | intros [? _]; discriminate].
Qed.

Lemma trimEnd_empty (s : string) : trimEnd s = "" <-> allWhiteSpace s.
Proof.
  induction s as [|c s IH]; cbn [trimEnd].
  - split; [intros _; constructor | reflexivity].
  - rewrite allWhiteSpace_cons, <- IH.
    destruct (trimEnd s); [|split; [discriminate | intros [_ ?]; discriminate]].
    destruct (isWhiteSpace c); split; try discriminate; try tauto.
    intros [? _]; discriminate.
Qed.

Lemma allWhiteSpace_trimStart (s : string) :
  allWhiteSpace (trimStart s) -> allWhiteSpace s.
Proof.
  induction s as [|c s IH]; cbn [trimStart]; [exact id|].
  destruct (isWhiteSpace c) eqn:W; [|exact id].
  intros A. apply allWhiteSpace_cons. auto.
Qed.

(** A string trims to the empty string exactly when it is blank. *)
Lemma trim_empty (s : string) : trim s = "" <-> allWhiteSpace s.
Proof.
  unfold trim. rewrite trimEnd_empty. split.
  - apply allWhiteSpace_trimStart.
  - intros A. apply trimStart_empty in A. rewrite A. constructor.
Qed.

Lemma toLowerCase_nil (s : string) : toLowerCase s = "" <-> s = "".
Proof. destruct s; cbn; split; congruence. Qed.

(** X4.  A blank [on_value] is not defaulted: a non-empty string of
    white space is truthy, so the stored [onValue] is the empty string
    and not ["playing"], and the state of a chunk matches exactly when
    the chunk is blank. *)
Theorem blank_on_value_matches_blank_output (config : gmap string JsValue)
    (this : SshAccessory) (w : string) :
  construct config = Normal this ->
  config !! "on_value" = Some (JStr w) -> w <> "" -> allWhiteSpace w ->
  onValue this = ""
  /\ (forall t, matchesString this (toLowerCase (trim t)) = true
                <-> allWhiteSpace t).
Proof.
  intros H L Hw A.
  assert (onValue this = "") as V.
  { destruct (constructed_onValue config this H) as (u & E & ->).
    rewrite (config_at_Some _ _ _ L) in E.
    rewrite or_else_l in E by now apply truthy_JStr.
    injection E as <-. apply toLowerCase_nil. now apply trim_empty. }
  split; [exact V|]. intros t.
  rewrite (constructed_matches config this _ H), V.
  now rewrite toLowerCase_nil, trim_empty.
Qed.

Lemma blank_on_value_matches_blank_output_witness :
  let config : gmap string JsValue := <["on_value" := JStr "  "]> lamp in
  let this :=
    {| powerOn := JBool false;
       name := name lamp_accessory;
       service := service lamp_accessory;
       onCommand := onCommand lamp_accessory;
       offCommand := offCommand lamp_accessory;
       stateCommand := stateCommand lamp_accessory;
       onValue := "";
       exactMatch := JBool true;
       ssh := ssh lamp_accessory;
       switchService := switchService lamp_accessory;
       informationService := informationService lamp_accessory |} in
  construct config = Normal this
  /\ onValue this = ""
  /\ (matchesString this (toLowerCase (trim nl)) = true
      <-> allWhiteSpace nl).
Proof.
  intros config this.
  assert (construct config = Normal this) as H by (vm_compute; reflexivity).
  split; [exact H|].
  destruct (blank_on_value_matches_blank_output config this "  " H)
    as [V M].
  - vm_compute; reflexivity.
  - discriminate.
  - repeat constructor.
  - split; [exact V | exact (M nl)].
Defined.

(** ** getServices called again *)

Lemma getServices_times_S (n : nat) (this : SshAccessory) :
  getServices_times (S n) this = fst (getServices (getServices_times n this)).
Proof. reflexivity. Qed.

Lemma getServices_times_stateCommand (n : nat) (this : SshAccessory) :
  stateCommand (getServices_times n this) = stateCommand this.
Proof.
  induction n as [|n IH]; [reflexivity|].
  rewrite getServices_times_S. exact IH.
Qed.

Lemma concat_repeat_snoc {A : Type} (b : list A) (n : nat) :
  concat (repeat b (S n)) = (concat (repeat b n) ++ b)%list.
Proof.
  induction n as [|n IH]; cbn [repeat concat] in *.
  - now rewrite app_nil_r.
  - now rewrite IH at 1; rewrite app_assoc.
Qed.

(** X5.  [getServices] is not idempotent on the switch service: every
    call attaches the handlers again, so after [n] calls the switch
    characteristic carries, in order, [n] copies of what one call
    attaches (the set handler, and the get handler when the state command
    is truthy), after the listeners it had. *)
Theorem getServices_attaches_each_time (n : nat) (this : SshAccessory) :
  listeners (switchService (getServices_times n this))
  = (listeners (switchService this)
     ++ concat (repeat (attached_once this) n))%list
  /\ length (listeners (switchService (getServices_times n this)))
     = (length (listeners (switchService this))
        + n * length (attached_once this))%nat.
Proof.
  assert (listeners (switchService (getServices_times n this))
          = (listeners (switchService this)
             ++ concat (repeat (attached_once this) n))%list) as E.
  { induction n as [|n IH].
    - cbn. now rewrite app_nil_r.
    - rewrite getServices_times_S, getServices_listeners, IH.
      rewrite getServices_times_stateCommand, concat_repeat_snoc.
      now rewrite <- app_assoc. }
  split; [exact E|]. rewrite E, length_app. f_equal.
  clear E. induction n as [|n IH]; [reflexivity|].
  cbn [repeat concat]. rewrite length_app, IH. cbn [Nat.mul]. lia.
Qed.

Lemma information_values_cons (c : Characteristic) (v : string)
    (vals : list (Characteristic * string)) :
  information_values ((c, v) :: vals)
  = match c with
    | On => (c, v) :: information_values vals
    | _ => information_values vals
    end.
Proof. destruct c; reflexivity. Qed.

Lemma information_values_idem (vals : list (Characteristic * string)) :
  information_values (information_values vals) = information_values vals.
Proof.
  induction vals as [|[c v] vals IH]; [reflexivity|].
  rewrite information_values_cons.
  destruct c; try exact IH.
  rewrite information_values_cons. now rewrite IH.
Qed.

Lemma getServices_information (this : SshAccessory) :
  informationService (fst (getServices this))
  = {| kind := kind (informationService this);
       displayName := displayName (informationService this);
       values := information_values (values (informationService this));
       listeners := listeners (informationService this) |}.
Proof. reflexivity. Qed.

(** X6.  On the information service [getServices] is idempotent: a
    second call leaves the service as the first call made it, and on an
    instance fresh from the constructor any number of calls gives the
    same three values, manufacturer, model and serial number, whatever
    the configuration. *)
Theorem getServices_information_idempotent (config : gmap string JsValue)
    (this : SshAccessory) (n : nat) :
  informationService (fst (getServices (fst (getServices this))))
  = informationService (fst (getServices this))
  /\ (construct config = Normal this ->
      values (informationService (getServices_times (S n) this))
      = [(Manufacturer, "SSH Manufacturer"); (Model, "SSH Model");
         (SerialNumber, "SSH Serial Number")]).
Proof.
  split.
  - rewrite (getServices_information (fst (getServices this))).
    rewrite (getServices_information this). cbn [kind displayName values listeners].
    now rewrite information_values_idem.
  - intros H. induction n as [|n IH].
    + unfold construct in H.
      destruct (or_else (config_at config "on_value") (JStr "playing"));
        try discriminate H.
      injection H as <-. reflexivity.
    + rewrite getServices_times_S, getServices_information.
      cbn [values]. rewrite IH. reflexivity.
Qed.

Lemma getServices_information_idempotent_witness :
  values (informationService (getServices_times 3 lamp_accessory))
  = [(Manufacturer, "SSH Manufacturer"); (Model, "SSH Model");
     (SerialNumber, "SSH Serial Number")].
Proof.
  apply (proj2 (getServices_information_idempotent lamp lamp_accessory 2)).
  vm_compute; reflexivity.
Defined.

(** ** Streams of events *)

Lemma callbacks_app (a b : list Effect) :
  callbacks (a ++ b) = (callbacks a ++ callbacks b)%list.
Proof. apply flat_map_app. Qed.

Lemma execs_app (a b : list Effect) :
  execs (a ++ b) = (execs a ++ execs b)%list.
Proof. apply flat_map_app. Qed.

Lemma exec_options_app (a b : list Effect) :
  exec_options (a ++ b) = (exec_options a ++ exec_options b)%list.
Proof. apply flat_map_app. Qed.

Lemma getState_on_callbacks (sourceMatch : string -> bool)
    (this : SshAccessory) (ev : StreamEvent) :
  length (callbacks (getState_on sourceMatch this ev))
  = (if answered_by_getState ev then 1 else 0)%nat.
Proof.
  destruct ev as [err|text| | |]; try reflexivity.
  cbn [getState_on]. destruct (sourceMatch text); reflexivity.
Qed.

(** X7.  The callback of [getState] is not guarded: over any sequence of
    events of its stream it is called once for every [error] and every
    [data] event, in both copies of the class, so two chunks answer the
    hub twice, and a stream that only finishes, closes or ends never
    answers. *)
Theorem getState_answers_every_chunk (sourceMatch : string -> bool)
    (this : SshAccessory) (events : list StreamEvent) :
  length (callbacks (flat_map (getState_on sourceMatch this) events))
  = length (List.filter answered_by_getState events)
  /\ length (callbacks (flat_map (Part000.getState_on this) events))
     = length (List.filter answered_by_getState events)
  /\ (forallb (fun ev => negb (answered_by_getState ev)) events = true ->
      callbacks (flat_map (getState_on sourceMatch this) events) = []).
Proof.
  assert (length (callbacks (flat_map (getState_on sourceMatch this) events))
          = length (List.filter answered_by_getState events)) as E.
  { induction events as [|ev events IH]; [reflexivity|].
    cbn [flat_map List.filter]. rewrite callbacks_app, length_app, IH.
    rewrite getState_on_callbacks.
    destruct (answered_by_getState ev); reflexivity. }
  split; [exact E|]. split.
  - clear E. induction events as [|ev events IH]; [reflexivity|].
    cbn [flat_map List.filter]. rewrite callbacks_app, length_app, IH.
    destruct ev; reflexivity.
  - intros Q. apply length_zero_iff_nil. rewrite E. clear E.
    induction events as [|ev events IH]; [reflexivity|].
    cbn [forallb] in Q. apply andb_prop in Q as [Q1 Q2].
    cbn [List.filter]. destruct (answered_by_getState ev); [discriminate Q1|].
    exact (IH Q2).
Qed.

Lemma getState_answers_every_chunk_witness :
  length (callbacks
            (flat_map (getState_on matchesString_pattern lamp_accessory)
               [Ev_data "on"; Ev_data "off"; Ev_finish; Ev_close]))
  = 2%nat
  /\ callbacks
       (flat_map (getState_on matchesString_pattern lamp_accessory)
          [Ev_finish; Ev_close; Ev_end])
     = [].
Proof.
  split.
  - apply (getState_answers_every_chunk matchesString_pattern lamp_accessory
             [Ev_data "on"; Ev_data "off"; Ev_finish; Ev_close]).
  - apply (getState_answers_every_chunk matchesString_pattern lamp_accessory
             [Ev_finish; Ev_close; Ev_end]).
    reflexivity.
Defined.

(** X8.  The callback of [setState] is called once for every [error]
    and every [finish] event of its stream and for no other event: a
    stream that fails and then finishes reports the error and then
    success, and one that only closes or ends never answers. *)
Theorem setState_answers_error_and_finish (this : SshAccessory)
    (powerOn_ : JsValue) (events : list StreamEvent) :
  length (callbacks (flat_map (setState_on this powerOn_) events))
  = length (List.filter answered_by_setState events)
  /\ (forall err,
        truthy err = true ->
        callbacks (flat_map (setState_on this powerOn_)
                     [Ev_error err; Ev_finish])
        = [[err]; [JUndefined]]).
Proof.
  split.
  - induction events as [|ev events IH]; [reflexivity|].
    cbn [flat_map List.filter]. rewrite callbacks_app, length_app, IH.
    destruct ev; reflexivity.
  - intros err T. cbn. unfold or_else. now rewrite T.
Qed.

Lemma setState_answers_error_and_finish_witness :
  callbacks (flat_map (setState_on lamp_accessory (JBool true))
               [Ev_error (JObj 1 "Error: ECONNREFUSED"); Ev_finish])
  = [[JObj 1 "Error: ECONNREFUSED"]; [JUndefined]].
Proof.
  apply (setState_answers_error_and_finish lamp_accessory (JBool true) []).
  reflexivity.
Defined.

(** ** Runs of calls and events *)

Lemma step_execs (sourceMatch : string -> bool) (this : SshAccessory)
    (a : Action) :
  let out := snd (step sourceMatch this a) in
  length (execs out) = (if opens_stream a then 1 else 0)%nat
  /\ Forall (fun c => c = onCommand this \/ c = offCommand this
                      \/ c = stateCommand this) (execs out)
  /\ Forall (fun o => o = ssh this) (exec_options out).
Proof.
  cbn zeta.
  assert (forall out : list Effect,
            execs out = [] -> exec_options out = [] ->
            length (execs out) = 0%nat
            /\ Forall (fun c => c = onCommand this \/ c = offCommand this
                                \/ c = stateCommand this) (execs out)
            /\ Forall (fun o => o = ssh this) (exec_options out)) as Quiet.
  { intros out -> ->. split; [reflexivity|]. split; constructor. }
  destruct a as [| |p| |p ev|ev]; cbn [step snd opens_stream].
  - now apply Quiet.
  - now apply Quiet.
  - rewrite setState_exec. split; [reflexivity|].
    split; (constructor; [|constructor]); [|reflexivity].
    destruct (truthy p); auto.
  - split; [reflexivity|].
    split; (constructor; [|constructor]); [|reflexivity]. auto.
  - apply Quiet; destruct ev; reflexivity.
  - apply Quiet; destruct ev as [err|text| | |]; try reflexivity;
      cbn [getState_on]; destruct (sourceMatch text); reflexivity.
Qed.

Lemma run_cons (sourceMatch : string -> bool) (this : SshAccessory)
    (a : Action) (rest : list Action) :
  run sourceMatch this (a :: rest)
  = (fst (run sourceMatch (fst (step sourceMatch this a)) rest),
     (snd (step sourceMatch this a)
      ++ snd (run sourceMatch (fst (step sourceMatch this a)) rest))%list).
Proof.
  cbn [run]. destruct (step sourceMatch this a) as [this' out].
  cbn [fst snd]. now destruct (run sourceMatch this' rest).
Qed.

Lemma run_execs (sourceMatch : string -> bool) (base : SshAccessory)
    (actions : list Action) (cur : SshAccessory) :
  sameData cur base ->
  Forall (fun c => c = onCommand base \/ c = offCommand base
                   \/ c = stateCommand base)
    (execs (snd (run sourceMatch cur actions)))
  /\ Forall (fun o => o = ssh base)
       (exec_options (snd (run sourceMatch cur actions))).
Proof.
  revert cur. induction actions as [|a rest IH]; intros cur D.
  - split; constructor.
  - rewrite run_cons. cbn [snd]. rewrite execs_app, exec_options_app.
    destruct (step_execs sourceMatch cur a) as (_ & C & O).
    destruct (IH (fst (step sourceMatch cur a))) as [C' O'].
    { exact (sameData_trans _ _ _ (step_sameData sourceMatch cur a) D). }
    destruct D as (_ & _ & _ & D4 & D5 & D6 & _ & _ & D9).
    rewrite D4, D5, D6 in C. rewrite D9 in O.
    split; apply Forall_app; split; assumption.
Qed.

(** X9.  Over any run of calls and stream events the adapter sends no
    command but the configured [on], [off] and [state] commands, and
    every transport call carries the options made by the constructor
    from [user], [host], [password], [key] and [ssh]. *)
Theorem only_configured_commands (sourceMatch : string -> bool)
    (config : gmap string JsValue) (this : SshAccessory)
    (actions : list Action) :
  construct config = Normal this ->
  let out := snd (run sourceMatch this actions) in
  Forall (fun c => c = config_at config "on" \/ c = config_at config "off"
                   \/ c = config_at config "state") (execs out)
  /\ Forall (fun o => o = {| user := config_at config "user";
                             host := config_at config "host";
                             password := config_at config "password";
                             key := config_at config "key";
                             assigned := config_at config "ssh" |})
       (exec_options out).
Proof.
  intros H out. subst out.
  assert (ssh this = {| user := config_at config "user";
                        host := config_at config "host";
                        password := config_at config "password";
                        key := config_at config "key";
                        assigned := config_at config "ssh" |}) as S.
  { construct_inv H v E. reflexivity. }
  destruct (constructed_fields config this H) as (_ & _ & On_ & Off_ & St & _).
  rewrite <- On_, <- Off_, <- St, <- S.
  apply run_execs, sameData_refl.
Qed.

Lemma only_configured_commands_witness :
  let actions :=
    [call_getServices; call_setState (JBool true); call_getState;
     event_getState (Ev_data "on"); call_setState (JNum 0)] in
  construct lamp = Normal lamp_accessory
  /\ execs (snd (run matchesString_pattern lamp_accessory actions))
     = [JStr "relay on"; JStr "relay status"; JStr "relay off"]
  /\ Forall (fun c => c = config_at lamp "on" \/ c = config_at lamp "off"
                      \/ c = config_at lamp "state")
       (execs (snd (run matchesString_pattern lamp_accessory actions))).
Proof.
  intros actions.
  assert (construct lamp = Normal lamp_accessory) as H
    by (vm_compute; reflexivity).
  split; [exact H|]. split; [vm_compute; reflexivity|].
  exact (proj1 (only_configured_commands matchesString_pattern lamp
                  lamp_accessory actions H)).
Defined.

(** X10.  One remote command per call: over any run the number of
    transport calls is the number of [setState] and [getState] calls;
    [identify], [getServices] and the stream listeners never call the
    transport, so nothing is retried. *)
Theorem one_transport_call_per_request (sourceMatch : string -> bool)
    (this : SshAccessory) (actions : list Action) :
  length (execs (snd (run sourceMatch this actions)))
  = length (List.filter opens_stream actions).
Proof.
  revert this. induction actions as [|a rest IH]; intros this.
  - reflexivity.
  - rewrite run_cons. cbn [snd List.filter].
    rewrite execs_app, length_app, IH.
    destruct (step_execs sourceMatch this a) as (-> & _).
    destruct (opens_stream a); reflexivity.
Qed.

Lemma sameData_behaviour (sourceMatch : string -> bool) (a b : SshAccessory) :
  sameData a b ->
  (forall v, setState a v = setState b v)
  /\ getState a = getState b
  /\ identify a = identify b
  /\ (forall v ev, setState_on a v ev = setState_on b v ev)
  /\ (forall ev, getState_on sourceMatch a ev = getState_on sourceMatch b ev)
  /\ (forall ev, Part000.getState_on a ev = Part000.getState_on b ev)
  /\ (forall s, matchesString a s = matchesString b s).
Proof.
  intros (D1 & D2 & D3 & D4 & D5 & D6 & D7 & D8 & D9).
  assert (forall s, matchesString a s = matchesString b s) as M.
  { intros s. unfold matchesString. now rewrite D7, D8. }
  split; [intros v; rewrite !setState_exec; now rewrite D4, D5, D9|].
  split; [unfold getState; now rewrite D6, D9|].
  split; [reflexivity|].
  split; [intros v ev; unfold setState_on; now rewrite D2|].
  split; [|split; [|exact M]].
  - intros ev. unfold getState_on. rewrite D1, D2, D7.
    destruct ev; try reflexivity. now rewrite M.
  - intros ev. unfold Part000.getState_on. rewrite D2.
    destruct ev; try reflexivity. now rewrite M.
Qed.

(** X11.  The adapter keeps no state between requests: after any run of
    calls and stream events, [setState], [getState], their listeners,
    [identify] and [matchesString] do exactly what they do on the
    instance before the run.  In particular a successful
    [setState(true)] does not change what a later [getState] answers. *)
Theorem behaviour_is_independent_of_history (sourceMatch : string -> bool)
    (this : SshAccessory) (actions : list Action) :
  let later := fst (run sourceMatch this actions) in
  (forall v, setState later v = setState this v)
  /\ getState later = getState this
  /\ identify later = identify this
  /\ (forall v ev, setState_on later v ev = setState_on this v ev)
  /\ (forall ev,
        getState_on sourceMatch later ev = getState_on sourceMatch this ev)
  /\ (forall ev, Part000.getState_on later ev = Part000.getState_on this ev)
  /\ (forall s, matchesString later s = matchesString this s).
Proof. apply sameData_behaviour, run_sameData. Qed.

(** X12.  The two copies of the [data] listener: in every state that a
    configuration can lead to, [src/src/accessory.ts] answers a chunk
    with [true] only if [src/unnamed/part_000] does; it answers what
    [part_000] answers unless the pattern of the method text is found in
    the chunk, and then it answers [false]. *)
Theorem data_listeners_compared (sourceMatch : string -> bool)
    (config : gmap string JsValue) (this : SshAccessory) (text : string) :
  reachable sourceMatch config this ->
  exists old new,
    callbacks (Part000.getState_on this (Ev_data text))
    = [[JUndefined; JBool old]]
    /\ callbacks (getState_on sourceMatch this (Ev_data text))
       = [[JUndefined; JBool new]]
    /\ new = negb (sourceMatch text) && old
    /\ (new = true -> old = true).
Proof.
  intros R.
  destruct (reachable_fields sourceMatch config this R) as (P & _).
  exists (matchesString this (toLowerCase (trim text))),
         (negb (sourceMatch text)
          && matchesString this (toLowerCase (trim text))).
  split; [reflexivity|]. split; [|split; [reflexivity|]].
  - cbn [getState_on]. rewrite P. destruct (sourceMatch text); reflexivity.
  - intros [_ M]%andb_prop. exact M.
Qed.

Lemma data_listeners_compared_witness :
  reachable matchesString_pattern lamp_echo lamp_echo_accessory
  /\ callbacks (Part000.getState_on lamp_echo_accessory
                  (Ev_data matching_chunk))
     = [[JUndefined; JBool true]]
  /\ callbacks (getState_on matchesString_pattern lamp_echo_accessory
                  (Ev_data matching_chunk))
     = [[JUndefined; JBool false]].
Proof.
  assert (reachable matchesString_pattern lamp_echo lamp_echo_accessory) as R.
  { exists lamp_echo_accessory, []. split; vm_compute; reflexivity. }
  split; [exact R|].
  destruct (data_listeners_compared matchesString_pattern lamp_echo
              lamp_echo_accessory matching_chunk R)
    as (old & new & A & B & C & _).
  assert (old = true) as ->.
  { vm_compute in A. now injection A as <-. }
  assert (new = false) as ->.
  { rewrite C. vm_compute; reflexivity. }
  split; [exact A | exact B].
Defined.

(** X13.  Nothing validates the commands.  For a configuration whose
    [on_value] is falsy or a string the constructor returns, also when
    the [on] or the [off] entry is missing; and in every state that the
    configuration leads to, [setState] of a truthy value without an [on]
    entry, or of a falsy value without an [off] entry, calls the
    transport with [undefined] as its command. *)
Theorem missing_command_is_sent_as_undefined (sourceMatch : string -> bool)
    (config : gmap string JsValue) (v : JsValue) :
  truthy (config_at config "on_value") = false
  \/ (exists s, config_at config "on_value" = JStr s) ->
  (exists this, construct config = Normal this)
  /\ (forall this,
        reachable sourceMatch config this ->
        (config !! "on" = None -> truthy v = true ->
         execs (setState this v) = [JUndefined])
        /\ (config !! "off" = None -> truthy v = false ->
            execs (setState this v) = [JUndefined])).
Proof.
  intros V. split; [now apply construct_returns|].
  intros this R.
  destruct (reachable_fields sourceMatch config this R)
    as (_ & _ & On_ & Off_ & _).
  rewrite setState_exec. split; intros L T; rewrite T; cbn.
  - now rewrite On_, (config_at_None _ _ L).
  - now rewrite Off_, (config_at_None _ _ L).
Qed.

Lemma missing_command_is_sent_as_undefined_witness :
  let config : gmap string JsValue := delete "on" lamp in
  config !! "on" = None
  /\ exists this,
       construct config = Normal this
       /\ execs (setState (fst (getServices this)) (JBool true))
          = [JUndefined].
Proof.
  intros config.
  assert (config !! "on" = None) as L by (vm_compute; reflexivity).
  split; [exact L|].
  destruct (missing_command_is_sent_as_undefined matchesString_pattern
              config (JBool true)) as [[this H] A].
  { right. exists "ON". vm_compute; reflexivity. }
  exists this. split; [exact H|].
  apply (proj1 (A (fst (getServices this))
                  (ex_intro _ this
                     (ex_intro _ [call_getServices] (conj H eq_refl))))).
  - exact L.
  - reflexivity.
Defined.
